(** * An inversion-of-control container: model of [Container.js]

    The container keeps four tables ([bindings], [instances], [resolved],
    [aliases]) and resolves an abstract name to an object by looking the
    name up, building the registered constructor and injecting, by
    parameter name, whatever the constructor asks for.

    The tables, and the parameter objects of [make] and [call], are
    JavaScript objects used as dictionaries; they are finite maps here,
    keyed by their own string keys (what an object inherits from
    [Object.prototype], or the default parameter array from
    [Array.prototype], is outside the model).  Everything the code decides
    by truthiness is decided by [truthy] below, and everything it decides
    by [!== undefined] by [defined].

    The two variants of the source (constructor function and class) differ
    in the pattern that reads the parameter names off a function's text;
    the one modelled is that of [Container.js]. *)

From Stdlib Require Import ZArith List Ascii String Lia.
From stdpp Require Import base option strings gmap list fin_maps pretty.

Local Open Scope string_scope.
Local Open Scope list_scope.

(** ** Values *)

(** A function value: its identity and the text [toString()] gives. *)
Record fn := Fn { fn_id : nat; fn_src : string }.

(** The values the container handles.  Numbers are the integer-valued
    ones; objects are references into the table of constructed objects. *)
Inductive value :=
| VUndefined
| VNull
| VBool (b : bool)
| VNum (z : Z)
| VStr (s : string)
| VFun (f : fn)
| VObj (o : nat).

#[global] Instance fn_eq_dec : EqDecision fn.
Proof. solve_decision. Defined.

#[global] Instance value_eq_dec : EqDecision value.
Proof. solve_decision. Defined.

(** [if (v)]: ToBoolean. *)
Definition truthy (v : value) : bool :=
  match v with
  | VUndefined | VNull => false
  | VBool b => b
  | VNum z => negb (z =? 0)%Z
  | VStr s => negb (bool_decide (s = ""))
  | VFun _ | VObj _ => true
  end.

(** [v !== undefined] *)
Definition defined (v : value) : bool :=
  match v with VUndefined => false | _ => true end.

(** [typeof v === 'function'] *)
Definition is_function (v : value) : bool :=
  match v with VFun _ => true | _ => false end.

(** What [new] accepts as the explicit result of a constructor body. *)
Definition is_object (v : value) : bool :=
  match v with VFun _ | VObj _ => true | _ => false end.

(** [a === b] *)
Definition strict_eq (a b : value) : bool := bool_decide (a = b).

(** ToString, as used for property keys ([table[v]]) and [v.toString()]. *)
Definition to_key (v : value) : string :=
  match v with
  | VUndefined => "undefined"
  | VNull => "null"
  | VBool true => "true"
  | VBool false => "false"
  | VNum z => pretty z
  | VStr s => s
  | VFun f => fn_src f
  | VObj _ => "[object Object]"
  end.

(** [table[k]] on a dictionary: a missing key reads as [undefined]. *)
Definition js_get (table : gmap string value) (k : string) : value :=
  default VUndefined (table !! k).

(** ** Strings and the two regular expressions *)

Module Str.

(** [/^\+/i] *)
Definition starts_with_plus (s : string) : bool :=
  match s with
  | String c _ => bool_decide (c = "+"%char)
  | EmptyString => false
  end.

(** [s.replace(/\+/, '')]: the first ["+"] is dropped. *)
Fixpoint remove_first_plus (s : string) : string :=
  match s with
  | EmptyString => EmptyString
  | String c s' =>
      if bool_decide (c = "+"%char) then s' else String c (remove_first_plus s')
  end.

(** [s.match(/@/i)] as a boolean. *)
Fixpoint contains (c : ascii) (s : string) : bool :=
  match s with
  | EmptyString => false
  | String a s' => bool_decide (a = c) || contains c s'
  end.

(** [s.split(c)] *)
Fixpoint split (c : ascii) (s : string) : list string :=
  match s with
  | EmptyString => [EmptyString]
  | String a s' =>
      if bool_decide (a = c) then EmptyString :: split c s'
      else match split c s' with
           | h :: t => String a h :: t
           | [] => [String a EmptyString]
           end
  end.

(** [\s] on the code units below 256. *)
Definition is_space (c : ascii) : bool :=
  let n := nat_of_ascii c in
  (Nat.leb 9 n && Nat.leb n 13) || Nat.eqb n 32 || Nat.eqb n 160.

(** What ends a line for [^] under the [m] flag. *)
Definition is_line_terminator (c : ascii) : bool :=
  let n := nat_of_ascii c in Nat.eqb n 10 || Nat.eqb n 13.

(** [s.replace(/\s/g, '')] *)
Fixpoint remove_spaces (s : string) : string :=
  match s with
  | EmptyString => EmptyString
  | String c s' =>
      if is_space c then remove_spaces s' else String c (remove_spaces s')
  end.

Fixpoint skip_spaces (s : string) : string :=
  match s with
  | String c s' => if is_space c then skip_spaces s' else s
  | EmptyString => EmptyString
  end.

(** The text after the first [c], if there is one. *)
Fixpoint after_first (c : ascii) (s : string) : option string :=
  match s with
  | EmptyString => None
  | String a s' => if bool_decide (a = c) then Some s' else after_first c s'
  end.

(** The text before the first [c], if there is one. *)
Fixpoint before_first (c : ascii) (s : string) : option string :=
  match s with
  | EmptyString => None
  | String a s' =>
      if bool_decide (a = c) then Some EmptyString
      else String a <$> before_first c s'
  end.

Fixpoint strip_prefix (p s : string) : option string :=
  match p, s with
  | EmptyString, _ => Some s
  | String a p', String b s' =>
      if bool_decide (a = b) then strip_prefix p' s' else None
  | String _ _, EmptyString => None
  end.

(** The pattern of [parseFunctionArguments] tried at one position: the
    word function, anything up to the first opening parenthesis, blanks,
    and the captured group, which runs up to the first closing
    parenthesis. *)
Definition signature_here (s : string) : option string :=
  rest ← strip_prefix "function" s;
  opened ← after_first "("%char rest;
  before_first ")"%char (skip_spaces opened).

(** The pattern is anchored by [^] under the [m] flag: the match is at
    the leftmost line start where it succeeds. *)
Fixpoint signature (line_start : bool) (s : string) : option string :=
  match (if line_start then signature_here s else None) with
  | Some captured => Some captured
  | None =>
      match s with
      | EmptyString => None
      | String c s' => signature (is_line_terminator c) s'
      end
  end.

End Str.

(** [parseFunctionArguments] on the text of [concrete.toString()]. *)
Definition parseSource (src : string) : list string :=
  match Str.signature true src with
  | None => []
  | Some args =>
      filter (λ dep, dep ≠ EmptyString) (Str.split ","%char (Str.remove_spaces args))
  end.

(** ** The container and what surrounds it *)

(** A registered binding: [{concrete: ..., shared: ...}]. *)
Record binding := Binding { concrete : value; shared : bool }.

(** The four tables of the container, the objects built so far (the
    object [VObj o] is entry [o]: its constructor and the arguments it
    got), and the parameter objects that callers hand to [make] and
    [call], which [call] updates in place. *)
Record state := State {
  bindings : gmap string binding;
  instances : gmap string value;
  resolved : gmap string bool;
  aliases : gmap string string;
  objects : list (fn * list value);
  arguments : gmap nat (gmap string value)
}.

#[global] Instance binding_eq_dec : EqDecision binding.
Proof. solve_decision. Defined.

Definition set_bindings (f : gmap string binding → gmap string binding) (s : state) : state :=
  State (f (bindings s)) (instances s) (resolved s) (aliases s) (objects s) (arguments s).
Definition set_instances (f : gmap string value → gmap string value) (s : state) : state :=
  State (bindings s) (f (instances s)) (resolved s) (aliases s) (objects s) (arguments s).
Definition set_resolved (f : gmap string bool → gmap string bool) (s : state) : state :=
  State (bindings s) (instances s) (f (resolved s)) (aliases s) (objects s) (arguments s).
Definition set_aliases (f : gmap string string → gmap string string) (s : state) : state :=
  State (bindings s) (instances s) (resolved s) (f (aliases s)) (objects s) (arguments s).
Definition set_objects (f : list (fn * list value) → list (fn * list value)) (s : state) : state :=
  State (bindings s) (instances s) (resolved s) (aliases s) (f (objects s)) (arguments s).
Definition set_arguments
    (f : gmap nat (gmap string value) → gmap nat (gmap string value)) (s : state) : state :=
  State (bindings s) (instances s) (resolved s) (aliases s) (objects s) (f (arguments s)).

(** [new Container]: every table empty. *)
Definition empty_container : state := State ∅ ∅ ∅ ∅ [] ∅.

Inductive error :=
| CannotFindModule (name : string)
| TypeError
| Exception (kind message : string)
| Thrown (what : string).

(** What a constructor body does with its arguments. *)
Inductive ctor_result :=
| CtorThis
| CtorReturn (v : value)
| CtorThrow (what : string).

(** The code the container does not own: the module loader [require], the
    bodies of the functions it constructs and calls, and property lookup
    on the values it is handed.  Bodies do not reach back into the
    container. *)
Class Host := {
  require : string → option value;
  construct : fn → list value → ctor_result;
  apply_function : fn → value → list value → value + string;
  get_property : list (fn * list value) → value → string → value
}.

(** A computation on the state: it returns, throws, or is cut off when
    the recursion budget is used up. *)
Inductive outcome (A : Type) :=
| Ret (a : A) (s : state)
| Throw (e : error) (s : state)
| OutOfFuel.
Arguments Ret {A} a s.
Arguments Throw {A} e s.
Arguments OutOfFuel {A}.

Definition M (A : Type) : Type := state → outcome A.

Definition ret {A} (a : A) : M A := λ s, Ret a s.
Definition throw {A} (e : error) : M A := λ s, Throw e s.
Definition bindM {A B} (c : M A) (k : A → M B) : M B :=
  λ s, match c s with
       | Ret a s' => k a s'
       | Throw e s' => Throw e s'
       | OutOfFuel => OutOfFuel
       end.
Definition get : M state := λ s, Ret s s.
Definition modify (f : state → state) : M unit := λ s, Ret tt (f s).

Declare Scope js_scope.
Delimit Scope js_scope with js.
Notation "'var' x ':=' c ';;' k" := (bindM c (λ x, k))
  (at level 10, x name, c at level 99, k at level 200) : js_scope.
Notation "'run' c ';;' k" := (bindM c (λ _, k))
  (at level 10, c at level 99, k at level 200) : js_scope.
Local Open Scope js_scope.

(** ** Registering (the functions that only touch the tables) *)

Definition dropStaleInstances (abstract : string) (s : state) : state :=
  set_instances (delete abstract) s.

Definition bind (abstract : string) (concrete shared : value) (s : state) : state :=
  set_bindings (insert abstract (Binding concrete (truthy shared)))
    (dropStaleInstances abstract s).

Definition isAlias (s : state) (abstract : string) : value :=
  match aliases s !! abstract with
  | Some target => VStr target
  | None => VUndefined
  end.



Definition singleton (abstract : string) (concrete : value) (s : state) : state :=
  bind abstract concrete (VBool true) s.

Definition alias (abstract alias : string) (s : state) : state :=
  set_aliases (insert alias abstract) s.

Definition instance (abstract : string) (instance : value) (s : state) : state :=
  set_instances (insert abstract instance) (set_aliases (delete abstract) s).



(** [getAlias]: one lookup; a missing or empty target leaves the name. *)
Definition getAlias (s : state) (abstract : value) : value :=
  if truthy (isAlias s (to_key abstract)) then isAlias s (to_key abstract) else abstract.

(** ** Resolving *)

(** [parameters[name]], where [parameters] is the caller's object or,
    when the caller gave none, the fresh empty one of
    [parameters = parameters || []]. *)
Definition parameter (s : state) (parameters : option nat) (name : string) : value :=
  match parameters with
  | Some r => js_get (default ∅ (arguments s !! r)) name
  | None => VUndefined
  end.

(** [delete parameters[name]] *)
Definition delete_parameter (parameters : option nat) (name : string) (s : state) : state :=
  match parameters with
  | Some r => set_arguments (alter (delete name) r) s
  | None => s
  end.

(** Modelled from the spec: the global helper [exception(kind, message)],
    which [callClass] calls and no source file defines; the spec has the
    call fail with an error of that kind. *)
Definition exception {A} (kind message : string) : M A :=
  throw (Exception kind message).

Definition isShared (s : state) (abstract : value) : bool :=
  let shared :=
    match bindings s !! to_key abstract with
    | Some b => shared b
    | None => false
    end in
  defined (js_get (instances s) (to_key abstract)) || shared.

Definition isBuildable (concrete abstract : value) : bool :=
  strict_eq concrete abstract || is_function concrete.

(** [abstract.match] exists on strings only. *)
Definition getConcrete (abstract : value) : M value :=
  λ s, match bindings s !! to_key abstract with
       | None =>
           match abstract with
           | VStr name =>
               if Str.starts_with_plus name then Ret abstract s
               else Ret (VStr ("+" ++ name)) s
           | _ => Throw TypeError s
           end
       | Some b => Ret (concrete b) s
       end.

Definition needAutoInject (concrete : value) : M bool :=
  match concrete with
  | VFun _ => ret false
  | VStr name => ret (Str.starts_with_plus name)
  | _ => throw TypeError
  end.

(** [concrete.toString()] fails on [undefined] and [null]. *)
Definition parseFunctionArguments (concrete : value) : M (list string) :=
  match concrete with
  | VUndefined | VNull => throw TypeError
  | _ => ret (parseSource (to_key concrete))
  end.

(** The end of [make]: a shared name gets its object cached, and the
    name is marked as resolved. *)
Definition remember (abstract object : value) : M value :=
  var s := get ;;
  run (if isShared s abstract
       then modify (set_instances (insert (to_key abstract) object))
       else ret tt) ;;
  run modify (set_resolved (insert (to_key abstract) true)) ;;
  ret object.

Section Resolver.
Context `{Host}.

(** [new concrete(...instances)]: only a function can be bound and
    constructed; a body that returns an object replaces [this]. *)
Definition instantiateClass (concrete : value) (instances : list value) : M value :=
  match concrete with
  | VFun f =>
      λ s, match construct f instances with
           | CtorThrow what => Throw (Thrown what) s
           | CtorReturn v =>
               if is_object v then Ret v s
               else Ret (VObj (length (objects s)))
                        (set_objects (λ os, os ++ [(f, instances)]) s)
           | CtorThis =>
               Ret (VObj (length (objects s)))
                   (set_objects (λ os, os ++ [(f, instances)]) s)
           end
  | _ => throw TypeError
  end.

Section OpenMake.
(** The recursive calls, [this.make]. *)
Variable make : value → option nat → M value.

Fixpoint getDependencies (dependencyArguments : list string)
    (parameters : option nat) : M (list value) :=
  match dependencyArguments with
  | [] => ret []
  | dependency :: rest =>
      var s := get ;;
      var first :=
        (if defined (parameter s parameters dependency)
         then ret (parameter s parameters dependency)
         else make (VStr dependency) None) ;;
      var dependencies := getDependencies rest parameters ;;
      ret (first :: dependencies)
  end.

Definition build (concrete : value) (parameters : option nat) : M value :=
  var inject := needAutoInject concrete ;;
  var concrete :=
    (if inject then
       let className := Str.remove_first_plus (to_key concrete) in
       match require className with
       | Some module => ret module
       | None => throw (CannotFindModule className)
       end
     else ret concrete) ;;
  var dependencyArguments := parseFunctionArguments concrete ;;
  var instances := getDependencies dependencyArguments parameters ;;
  instantiateClass concrete instances.

(** [make] from the cache check on, for the name after alias
    resolution. *)
Definition resolve (abstract : value) (parameters : option nat) : M value :=
  var s := get ;;
  if truthy (js_get (instances s) (to_key abstract))
  then ret (js_get (instances s) (to_key abstract))
  else
    var concrete := getConcrete abstract ;;
    var object :=
      (if isBuildable concrete abstract
       then build concrete parameters
       else make concrete parameters) ;;
    remember abstract object.

Definition make_step (abstract : value) (parameters : option nat) : M value :=
  var s := get ;;
  resolve (getAlias s abstract) parameters.
End OpenMake.

(** [make], with the depth of the recursion bounded by [fuel]. *)
Fixpoint make (fuel : nat) : value → option nat → M value :=
  match fuel with
  | O => λ _ _ _, OutOfFuel
  | S fuel' => make_step (make fuel')
  end.

End Resolver.

(** ** Calling *)

(** What [call] is given: a function, a string such as ["Class@method"],
    or the pair [[instance, method]]. *)
Inductive callable :=
| Function (f : fn)
| Target (target : string)
| Method (instance : value) (method : string).

(** [s[i]] on a string. *)
Definition char_at (s : string) (i : nat) : value :=
  match String.get i s with
  | Some c => VStr (String c EmptyString)
  | None => VUndefined
  end.

(** [callback[0]] and [callback[1]] (the latter as a property key) of a
    callback that is not a function. *)
Definition callback_parts (callback : callable) : value * string :=
  match callback with
  | Method instance method => (instance, method)
  | Target target => (char_at target 0, to_key (char_at target 1))
  | Function f => (VUndefined, to_key VUndefined)
  end.

Definition isCallableWithAtSign (callback : callable) : bool :=
  match callback with
  | Target target => Str.contains "@"%char target
  | _ => false
  end.

(** Truthiness of an optional string argument such as [defaultMethod]. *)
Definition given (method : option string) : bool :=
  match method with
  | Some name => truthy (VStr name)
  | None => false
  end.

Section Invoker.
Context `{Host}.

(** [instance[method]]; reading a property of [undefined] or [null]
    throws. *)
Definition member (instance : value) (method : string) : M value :=
  match instance with
  | VUndefined | VNull => throw TypeError
  | _ => λ s, Ret (get_property (objects s) instance method) s
  end.

Definition getCallRefrector (callback : callable) : M (list string) :=
  match callback with
  | Function f => parseFunctionArguments (VFun f)
  | _ =>
      let '(instance, method) := callback_parts callback in
      var target := member instance method ;;
      parseFunctionArguments target
  end.

(** [f.apply(this, dependencies)] *)
Definition apply (f : value) (this : value) (dependencies : list value) : M value :=
  match f with
  | VFun f =>
      match apply_function f this dependencies with
      | inl result => ret result
      | inr what => throw (Thrown what)
      end
  | _ => throw TypeError
  end.

Definition executeCallable (callback : callable) (dependencies : list value) : M value :=
  match callback with
  | Function f => apply (VFun f) (VFun f) dependencies
  | _ =>
      let '(instance, method) := callback_parts callback in
      var target := member instance method ;;
      apply target instance dependencies
  end.

Section OpenCall.
Variable make : value → option nat → M value.
Variable call : callable → option nat → option string → M value.

(** The value pushed onto [dependencies]. *)
Definition addDependencyForCallParameter (parameter0 : string)
    (parameters : option nat) : M value :=
  var s := get ;;
  if defined (parameter s parameters parameter0)
  then
    run modify (delete_parameter parameters parameter0) ;;
    ret (parameter s parameters parameter0)
  else make (VStr parameter0) parameters.

Fixpoint collect (names : list string) (parameters : option nat) : M (list value) :=
  match names with
  | [] => ret []
  | name :: rest =>
      var first := addDependencyForCallParameter name parameters ;;
      var dependencies := collect rest parameters ;;
      ret (first :: dependencies)
  end.

Definition getMethodDependencies (callback : callable)
    (parameters : option nat) : M (list value) :=
  var names := getCallRefrector callback ;;
  collect names parameters.

(** [target.split] exists on strings only. *)
Definition callClass (target : callable) (parameters : option nat)
    (defaultMethod : option string) : M value :=
  match target with
  | Target target =>
      let segments := Str.split "@"%char target in
      let method :=
        if Nat.eqb (length segments) 2 then segments !! 1 else defaultMethod in
      if negb (given method)
      then exception "InvalidArgumentException" "Method is not provided."
      else
        var instance := make (VStr (default EmptyString (segments !! 0))) parameters ;;
        call (Method instance (default EmptyString method)) parameters None
  | _ => throw TypeError
  end.

Definition call_step (callback : callable) (parameters : option nat)
    (defaultMethod : option string) : M value :=
  if isCallableWithAtSign callback || given defaultMethod
  then callClass callback parameters defaultMethod
  else
    var dependencies := getMethodDependencies callback parameters ;;
    executeCallable callback dependencies.
End OpenCall.

(** [call]; it re-enters itself once, from [callClass]. *)
Fixpoint call (fuel : nat) : callable → option nat → option string → M value :=
  match fuel with
  | O => λ _ _ _ _, OutOfFuel
  | S fuel' => call_step (make fuel') (call fuel')
  end.

End Invoker.

(** ** The vocabulary of the laws *)

(** [grows s s']: [s'] has the bindings, aliases and parameter objects of
    [s], every truthy cached instance of [s], and the objects of [s]
    followed by the ones built since. *)
Definition grows (s s' : state) : Prop :=
  bindings s' = bindings s
  ∧ aliases s' = aliases s
  ∧ arguments s' = arguments s
  ∧ (∀ k, truthy (js_get (instances s) k) = true → instances s' !! k = instances s !! k)
  ∧ objects s `prefix_of` objects s'.

(** A postcondition on both ways a computation can end. *)
Definition after {A} (c : M A) (s : state) (post : state → Prop) : Prop :=
  match c s with
  | Ret _ s' => post s'
  | Throw _ s' => post s'
  | OutOfFuel => True
  end.

Definition steady {A} (c : M A) : Prop := ∀ s, after c s (grows s).

(** A run of [make] calls, each taken to its end: a return or a throw. *)
Fixpoint makes `{Host} (calls : list (nat * value * option nat)) (s : state) : option state :=
  match calls with
  | [] => Some s
  | (fuel, abstract, parameters) :: rest =>
      match make fuel abstract parameters s with
      | Ret _ s' => makes rest s'
      | Throw _ s' => makes rest s'
      | OutOfFuel => None
      end
  end.



(** What is left of a parameter object after the names were gone through
    in order: each name found with a defined value has lost its entry. *)
Definition consume (names : list string) (m : gmap string value) : gmap string value :=
  foldl (λ m name, if defined (js_get m name) then delete name m else m) m names.

(** [kept R c]: however [c] ends, the state it leaves is related by [R]
    to the one it started in. *)
Definition kept (R : state → state → Prop) {A} (c : M A) : Prop :=
  ∀ s, after c s (R s).

(** The marks in [resolved] stay. *)
Definition marks_stay (s s' : state) : Prop :=
  ∀ k, resolved s !! k = Some true → resolved s' !! k = Some true.

(** The bindings stay, and so does the cache entry of every name that is
    not shared. *)
Definition unshared_stay (s s' : state) : Prop :=
  bindings s' = bindings s
  ∧ ∀ k, isShared s (VStr k) = false → instances s' !! k = instances s !! k.

(** No character of [s] satisfies [p]. *)
Fixpoint free_of (p : ascii → bool) (s : string) : bool :=
  match s with
  | EmptyString => true
  | String c s' => negb (p c) && free_of p s'
  end.

(** [names.join(sep)] *)
Fixpoint join (sep : string) (names : list string) : string :=
  match names with
  | [] => EmptyString
  | [name] => name
  | name :: rest => (name ++ sep ++ join sep rest)%string
  end.

(** What may stand in a parameter name for the pattern of
    [parseFunctionArguments] to read it back: no blank, no comma, no
    closing parenthesis. *)
Definition name_char (c : ascii) : bool :=
  negb (Str.is_space c || bool_decide (c = ","%char) || bool_decide (c = ")"%char)).

Definition plain_name (name : string) : bool :=
  negb (bool_decide (name = EmptyString)) && free_of (λ c, negb (name_char c)) name.

(** ** The fixtures of the test suite *)

Module Fixture.

Definition HasherInstance : fn :=
  Fn 1 "function HasherInstance() { this.make = function () { return 'Make some hashing'; }; }".
Definition ConfigInstance : fn :=
  Fn 2 "function ConfigInstance() { this.grab = function () { return 'Grab config'; }; }".
Definition StarInstance : fn :=
  Fn 3 "function StarInstance(config) { this.config = function () { return config; }; }".
Definition SingletonInstance : fn :=
  Fn 4 "function SingletonInstance() { var num = Math.random(); this.greet = function () { return num; }; }".
Definition TestFunctionAtSignCall : fn :=
  Fn 5 "function (title, foo) { this.foo = foo; this.title = title; this.sayHello = function (id, newfoo) { return 0; }; }".
Definition sayHello : fn :=
  Fn 6 "function (id, newfoo) { return 0; }".
Definition closure : fn :=
  Fn 7 "function (id, foobar, barfoo) { }".
Definition testing : fn :=
  Fn 8 "function (bar, id, foo) { this.bar = bar; this.id = id; this.foo = foo; }".
Definition hello : fn :=
  Fn 9 "function (foo) { return { foo: foo }; }".

(** No module can be loaded, constructors run to their end, a call
    returns the first argument it was given, and the only method an
    object has is [sayHello], on what [TestFunctionAtSignCall] built. *)
Definition host : Host := {|
  require := λ _, None;
  construct := λ _ _, CtorThis;
  apply_function := λ _ _ dependencies, inl (default VUndefined (head dependencies));
  get_property := λ objects instance method,
    match instance with
    | VObj o =>
        match objects !! o with
        | Some (f, _) =>
            if bool_decide (f = TestFunctionAtSignCall ∧ method = "sayHello")
            then VFun sayHello else VUndefined
        | None => VUndefined
        end
    | _ => VUndefined
    end
|}.

(** The same, with a module [config] on the load path. *)
Definition loading_host : Host := {|
  require := λ name,
    if bool_decide (name = "config") then Some (VFun ConfigInstance) else None;
  construct := construct (Host := host);
  apply_function := apply_function (Host := host);
  get_property := get_property (Host := host)
|}.

(** A parameter object [r] holding [entries]. *)
Definition with_arguments (r : nat) (entries : list (string * value)) (s : state) : state :=
  set_arguments (insert r (list_to_map entries)) s.

End Fixture.


(** * What resolving leaves alone *)

Lemma grows_refl s : grows s s.
Proof. by repeat split. Qed.

Lemma grows_trans s1 s2 s3 : grows s1 s2 → grows s2 s3 → grows s1 s3.
Proof.
  intros (Hb1 & Ha1 & Hp1 & Hi1 & Ho1) (Hb2 & Ha2 & Hp2 & Hi2 & Ho2).
  repeat split; try congruence.
  - intros k Hk. rewrite <- (Hi1 k Hk). apply Hi2.
    unfold js_get. rewrite (Hi1 k Hk). exact Hk.
  - by etrans.
Qed.

Lemma steady_ret {A} (a : A) : steady (ret a).
Proof. intros s. apply grows_refl. Qed.

Lemma steady_throw {A} e : steady (@throw A e).
Proof. intros s. apply grows_refl. Qed.

Lemma steady_get : steady get.
Proof. intros s. apply grows_refl. Qed.

Lemma after_bind {A B} (c : M A) (k : A → M B) s (post : state → Prop) :
  after c s (λ s', post s' ∧ ∀ a, c s = Ret a s' → after (k a) s' post) →
  after (bindM c k) s post.
Proof.
  unfold after, bindM. destruct (c s) as [a s'|e s'|]; [|tauto|done].
  intros [_ Hk]. by apply Hk.
Qed.

Lemma steady_bind {A B} (c : M A) (k : A → M B) :
  steady c → (∀ a, steady (k a)) → steady (bindM c k).
Proof.
  intros Hc Hk s. specialize (Hc s). unfold after, bindM in *.
  destruct (c s) as [a s'|e s'|]; [|done..].
  specialize (Hk a s'). unfold after in Hk.
  destruct (k a s'); eauto using grows_trans.
Qed.

Create HintDb steady.
#[local] Hint Resolve steady_ret steady_throw steady_get steady_bind grows_refl : steady.

(** [getConcrete] only reads. *)
Lemma getConcrete_state abstract s :
  match getConcrete abstract s with
  | Ret _ s' => s' = s
  | Throw _ s' => s' = s
  | OutOfFuel => False
  end.
Proof.
  unfold getConcrete. destruct (bindings s !! to_key abstract); [done|].
  destruct abstract; try done. by destruct (Str.starts_with_plus s0).
Qed.

Lemma steady_getConcrete abstract : steady (getConcrete abstract).
Proof.
  intros s. unfold after, getConcrete.
  destruct (bindings s !! to_key abstract); [apply grows_refl|].
  destruct abstract; try apply grows_refl.
  destruct (Str.starts_with_plus s0); apply grows_refl.
Qed.

Lemma steady_needAutoInject concrete : steady (needAutoInject concrete).
Proof. destruct concrete; simpl; auto with steady. Qed.

Lemma steady_parseFunctionArguments concrete : steady (parseFunctionArguments concrete).
Proof. destruct concrete; simpl; auto with steady. Qed.

Lemma grows_built s f args :
  grows s (set_objects (λ os, os ++ [(f, args)]) s).
Proof. repeat split; simpl; try done. by apply prefix_app_r. Qed.

Lemma steady_instantiateClass `{Host} concrete args : steady (instantiateClass concrete args).
Proof.
  intros s. unfold after, instantiateClass.
  destruct concrete; try apply grows_refl.
  destruct (construct f args) as [|v|]; [apply grows_built| |apply grows_refl].
  destruct (is_object v); [apply grows_refl|apply grows_built].
Qed.

#[local] Hint Resolve steady_getConcrete steady_needAutoInject
  steady_parseFunctionArguments steady_instantiateClass : steady.

Section SteadyResolver.
Context `{Host}.
Variable mk : value → option nat → M value.
Hypothesis steady_mk : ∀ abstract parameters, steady (mk abstract parameters).

Lemma steady_getDependencies names parameters :
  steady (getDependencies mk names parameters).
Proof.
  induction names as [|name names IH]; simpl; [auto with steady|].
  apply steady_bind; [auto with steady|]. intros s.
  apply steady_bind.
  - destruct (defined _); auto with steady.
  - intros first. apply steady_bind; auto with steady.
Qed.

Lemma steady_build concrete parameters : steady (build mk concrete parameters).
Proof.
  unfold build. apply steady_bind; [auto with steady|]. intros inject.
  apply steady_bind.
  - destruct inject; [|auto with steady].
    destruct (require _); auto with steady.
  - intros c. apply steady_bind; [auto with steady|]. intros names.
    apply steady_bind; [apply steady_getDependencies|auto with steady].
Qed.

(** The cache is written under a name whose entry was not truthy when
    [make] looked. *)
Lemma remember_grows abstract object s0 s :
  grows s0 s →
  truthy (js_get (instances s0) (to_key abstract)) = false →
  after (remember abstract object) s (grows s0).
Proof.
  intros (Hb & Ha & Hp & Hi & Ho) Hfalsy.
  unfold after, remember, bindM, get, modify, ret.
  destruct (isShared s abstract); simpl; repeat split; simpl; try done.
  intros k Hk. rewrite lookup_insert_ne; [by apply Hi|].
  intros <-. congruence.
Qed.

Lemma steady_resolve abstract parameters : steady (resolve mk abstract parameters).
Proof.
  intros s. unfold after, resolve. unfold bindM at 1. unfold get.
  destruct (truthy (js_get (instances s) (to_key abstract))) eqn:Hcached;
    [apply grows_refl|].
  unfold bindM at 1.
  pose proof (getConcrete_state abstract s) as Hget.
  destruct (getConcrete abstract s) as [c s1|e s1|]; [subst s1|by subst s1|done].
  set (body := if isBuildable c abstract
               then build mk c parameters else mk c parameters).
  assert (Hobj : steady body).
  { subst body. destruct (isBuildable c abstract); [apply steady_build|apply steady_mk]. }
  specialize (Hobj s). unfold after in Hobj. unfold bindM at 1.
  destruct (body s) as [o s2|e s2|]; [|done..].
  by apply (remember_grows abstract o s s2).
Qed.

Lemma steady_make_step abstract parameters : steady (make_step mk abstract parameters).
Proof. intros s. unfold make_step, after, bindM, get. apply steady_resolve. Qed.
End SteadyResolver.

Lemma steady_make `{Host} fuel abstract parameters : steady (make fuel abstract parameters).
Proof.
  revert abstract parameters.
  induction fuel as [|fuel IH]; intros abstract parameters; [by intros s|].
  simpl. by apply steady_make_step.
Qed.

(** * What [make] returns *)

(** Unfolding the state monad in a goal. *)
Ltac unfold_monad := unfold bindM, ret, throw, get, modify in *.

Lemma bindM_Ret {A B} (c : M A) (k : A → M B) s b s' :
  bindM c k s = Ret b s' → ∃ a s1, c s = Ret a s1 ∧ k a s1 = Ret b s'.
Proof. unfold bindM. destruct (c s) as [a s1| |]; [eauto|done..]. Qed.

Lemma remember_Ret abstract object s v s' :
  remember abstract object s = Ret v s' →
  v = object
  ∧ s' = set_resolved (insert (to_key abstract) true)
           (if isShared s abstract
            then set_instances (insert (to_key abstract) object) s else s).
Proof.
  unfold remember. unfold_monad.
  destruct (isShared s abstract); intros [= <- <-]; done.
Qed.

Lemma instantiateClass_truthy `{Host} concrete args s v s' :
  instantiateClass concrete args s = Ret v s' → truthy v = true.
Proof.
  unfold instantiateClass. destruct concrete; try done.
  destruct (construct f args) as [|w|]; [by intros [= <- _]| |done].
  destruct (is_object w) eqn:Hw; [|by intros [= <- _]].
  intros [= <- _]. by destruct w.
Qed.

Lemma build_truthy `{Host} mk concrete parameters s v s' :
  build mk concrete parameters s = Ret v s' → truthy v = true.
Proof.
  unfold build. intros Hb.
  apply bindM_Ret in Hb as (inject & s1 & _ & Hb).
  apply bindM_Ret in Hb as (c & s2 & _ & Hb).
  apply bindM_Ret in Hb as (names & s3 & _ & Hb).
  apply bindM_Ret in Hb as (args & s4 & _ & Hb).
  by eapply instantiateClass_truthy.
Qed.

(** Whatever [make] returns is truthy: a cached entry that passed the
    check, or a freshly constructed object. *)
Lemma make_truthy `{Host} fuel abstract parameters s v s' :
  make fuel abstract parameters s = Ret v s' → truthy v = true.
Proof.
  revert abstract parameters s v s'.
  induction fuel as [|fuel IH]; intros abstract parameters s v s'; [done|].
  simpl. unfold make_step. unfold bindM at 1. unfold get.
  generalize (getAlias s abstract). clear abstract. intros abstract.
  unfold resolve. unfold bindM at 1. unfold get.
  destruct (truthy (js_get (instances s) (to_key abstract))) eqn:Hcached.
  - by intros [= <- _].
  - intros Hr. apply bindM_Ret in Hr as (c & s1 & _ & Hr).
    apply bindM_Ret in Hr as (o & s2 & Hobj & Hr).
    apply remember_Ret in Hr as [-> _].
    destruct (isBuildable c abstract); [by eapply build_truthy|by eapply IH].
Qed.

(** * The laws of the specification *)





(** ** Singletons *)

(** The first [make] of a shared, unaliased name leaves its result in
    the cache. *)
Lemma make_caches `{Host} fuel n parameters s b v s' :
  truthy (isAlias s n) = false →
  bindings s !! n = Some b → shared b = true →
  make fuel (VStr n) parameters s = Ret v s' →
  instances s' !! n = Some v.
Proof.
  intros Halias Hb Hshared. destruct fuel as [|fuel]; [done|].
  simpl. unfold make_step. unfold bindM at 1. unfold get, getAlias. simpl.
  rewrite Halias. unfold resolve. unfold bindM at 1. unfold get. simpl.
  destruct (truthy (js_get (instances s) n)) eqn:Hcached.
  - intros [= <- <-]. unfold js_get in *.
    by destruct (instances s !! n).
  - unfold bindM at 1.
    pose proof (getConcrete_state (VStr n) s) as Hget.
    destruct (getConcrete (VStr n) s) as [c s1|e s1|]; [subst s1|done..].
    intros Hr. apply bindM_Ret in Hr as (o & s2 & Hobj & Hr).
    apply remember_Ret in Hr as [-> ->].
    assert (grows s s2) as (Hbs & _).
    { destruct (isBuildable c (VStr n)).
      - pose proof (steady_build _ (steady_make fuel) c parameters s) as Hs.
        unfold after in Hs. by rewrite Hobj in Hs.
      - pose proof (steady_make fuel c parameters s) as Hs.
        unfold after in Hs. by rewrite Hobj in Hs. }
    unfold isShared. simpl. rewrite Hbs, Hb, Hshared, orb_true_r. simpl.
    by rewrite lookup_insert_eq.
Qed.

(** The fast path of [make]: a truthy cached entry under an unaliased
    name is the answer, and nothing changes. *)
Lemma make_cached `{Host} fuel n parameters s v :
  truthy (isAlias s n) = false →
  instances s !! n = Some v → truthy v = true →
  make (S fuel) (VStr n) parameters s = Ret v s.
Proof.
  intros Halias Hcached Hv.
  simpl. unfold make_step. unfold bindM at 1. unfold get, getAlias. simpl.
  rewrite Halias. unfold resolve. unfold bindM at 1. unfold get, js_get. simpl.
  by rewrite Hcached; simpl; rewrite Hv.
Qed.


Lemma makes_grows `{Host} calls s s' : makes calls s = Some s' → grows s s'.
Proof.
  revert s. induction calls as [|[[fuel abstract] parameters] calls IH]; intros s.
  - intros [= <-]. apply grows_refl.
  - simpl. pose proof (steady_make fuel abstract parameters s) as Hs.
    unfold after in Hs.
    destruct (make fuel abstract parameters s); [| |done];
      intros Hrest; eauto using grows_trans.
Qed.

(** C2, as amended: when [n] is not an alias for another name, and
    [make(n)] returns [v] after [singleton(n, C)], then [make(n)] keeps
    returning that very [v], and changes nothing, after any further run
    of [make] calls on any names. *)
Theorem singleton_law `{Host} (n : string) (C : fn) (s : state) (fuel : nat)
    (parameters : option nat) (v : value) (s1 : state)
    (calls : list (nat * value * option nat)) (s2 : state) :
  truthy (isAlias s n) = false →
  make fuel (VStr n) parameters (singleton n (VFun C) s) = Ret v s1 →
  makes calls s1 = Some s2 →
  ∀ fuel' parameters', make (S fuel') (VStr n) parameters' s2 = Ret v s2.
Proof.
  intros Halias Hfirst Hcalls fuel' parameters'.
  pose proof (make_truthy _ _ _ _ _ _ Hfirst) as Hv.
  assert (instances s1 !! n = Some v) as Hcached.
  { apply (make_caches fuel n parameters (singleton n (VFun C) s)
             (Binding (VFun C) true) v s1); [exact Halias| |done|exact Hfirst].
    unfold singleton, bind. simpl. apply lookup_insert_eq. }
  pose proof (steady_make fuel (VStr n) parameters (singleton n (VFun C) s)) as Hs1.
  unfold after in Hs1. rewrite Hfirst in Hs1.
  pose proof (grows_trans _ _ _ Hs1 (makes_grows _ _ _ Hcalls)) as (_ & Ha & _).
  destruct (makes_grows _ _ _ Hcalls) as (_ & _ & _ & Hi & _).
  assert (instances s2 !! n = Some v) as Hcached2.
  { rewrite Hi; [done|]. unfold js_get. by rewrite Hcached. }
  apply make_cached; [|exact Hcached2|exact Hv].
  unfold isAlias in *. by rewrite Ha.
Qed.

Lemma singleton_law_witness :
  let s := bind "hash" (VFun Fixture.HasherInstance) VUndefined empty_container in
  let s1 :=
    set_resolved (insert "singleton" true)
      (set_instances (insert "singleton" (VObj 0))
         (set_objects (λ os, os ++ [(Fixture.SingletonInstance, [])])
            (singleton "singleton" (VFun Fixture.SingletonInstance) s))) in
  let s2 :=
    set_resolved (insert "hash" true)
      (set_objects (λ os, os ++ [(Fixture.HasherInstance, [])]) s1) in
  truthy (isAlias s "singleton") = false
  ∧ make (H := Fixture.host) 2 (VStr "singleton") None
      (singleton "singleton" (VFun Fixture.SingletonInstance) s) = Ret (VObj 0) s1
  ∧ makes (H := Fixture.host)
      [(2, VStr "hash", None); (3, VStr "missing", None)] s1 = Some s2
  ∧ make (H := Fixture.host) 1 (VStr "singleton") None s2 = Ret (VObj 0) s2.
Proof.
  intros s s1 s2.
  assert (Hfirst : make (H := Fixture.host) 2 (VStr "singleton") None
                     (singleton "singleton" (VFun Fixture.SingletonInstance) s)
                   = Ret (VObj 0) s1) by (vm_compute; reflexivity).
  assert (Hcalls : makes (H := Fixture.host)
                     [(2, VStr "hash", None); (3, VStr "missing", None)] s1 = Some s2)
    by (vm_compute; reflexivity).
  split; [reflexivity|]. split; [exact Hfirst|]. split; [exact Hcalls|].
  exact (singleton_law (H := Fixture.host) "singleton" Fixture.SingletonInstance s 2 None
           (VObj 0) s1 _ s2 eq_refl Hfirst Hcalls 0 None).
Defined.

(** C2 as it is stated fails when the name is already an alias: after
    [alias('m', 'n')], [bind('m', Hasher)] and [singleton('n', C)], each
    [make('n')] resolves 'm' and builds a new object. *)
Lemma singleton_law_aliased :
  let s0 := singleton "n" (VFun Fixture.SingletonInstance)
              (bind "m" (VFun Fixture.HasherInstance) VUndefined
                 (alias "m" "n" empty_container)) in
  ∃ s1 s2,
    make (H := Fixture.host) 2 (VStr "n") None s0 = Ret (VObj 0) s1
    ∧ make (H := Fixture.host) 2 (VStr "n") None s1 = Ret (VObj 1) s2
    ∧ VObj 0 ≠ VObj 1.
Proof.
  intros s0. subst s0. eexists. eexists.
  split; [vm_compute; reflexivity|].
  split; [vm_compute; reflexivity|done].
Qed.

(** ** Injection by parameter name *)

Lemma parameter_grows s s' parameters name :
  grows s s' → parameter s' parameters name = parameter s parameters name.
Proof. intros (_ & _ & Hp & _). unfold parameter. by rewrite Hp. Qed.



(** [build] on a function: no loading, its own parameter names. *)
Lemma build_function `{Host} mk C parameters s :
  build mk (VFun C) parameters s
  = bindM (getDependencies mk (parseSource (fn_src C)) parameters)
      (instantiateClass (VFun C)) s.
Proof. reflexivity. Qed.


(** ** Calling a method that was not named *)

(** C4: a call that goes to [callClass] (its target has an at sign), with
    no usable [defaultMethod] and a target that does not split into
    exactly a class and a non-empty method, throws
    [InvalidArgumentException] and leaves the state as it was: nothing was
    resolved, built or called. *)
Theorem callClass_method_not_provided `{Host} (fuel : nat) (target : string)
    (parameters : option nat) (defaultMethod : option string) (s : state) :
  isCallableWithAtSign (Target target) = true →
  given defaultMethod = false →
  (∀ class method, Str.split "@"%char target = [class; method] → method = "") →
  call (S fuel) (Target target) parameters defaultMethod s
  = Throw (Exception "InvalidArgumentException" "Method is not provided.") s.
Proof.
  intros Hat Hdefault Hsegments.
  simpl. unfold call_step. rewrite Hat. simpl.
  destruct (Str.split "@"%char target) as [|class [|method [|third rest]]] eqn:Hsplit;
    simpl; try by rewrite Hdefault.
  by rewrite (Hsegments class method eq_refl).
Qed.

Lemma callClass_method_not_provided_witness :
  isCallableWithAtSign (Target "Greeter@") = true
  ∧ given None = false
  ∧ (∀ class method, Str.split "@"%char "Greeter@" = [class; method] → method = "")
  ∧ call (H := Fixture.host) 1 (Target "Greeter@") (Some 0) None
      (bind "Greeter" (VFun Fixture.TestFunctionAtSignCall) VUndefined empty_container)
    = Throw (Exception "InvalidArgumentException" "Method is not provided.")
        (bind "Greeter" (VFun Fixture.TestFunctionAtSignCall) VUndefined empty_container).
Proof.
  assert (∀ class method, Str.split "@"%char "Greeter@" = [class; method] → method = "")
    as Hsegments by (vm_compute; intros class method [= _ <-]; reflexivity).
  split; [reflexivity|]. split; [reflexivity|]. split; [exact Hsegments|].
  apply (callClass_method_not_provided (H := Fixture.host)); [reflexivity..|exact Hsegments].
Defined.

(** ** Indirection *)





(** ** Aliases *)




(** ** Binding again *)



(** ** Forgetting *)







(** ** Binding once *)





(** ** The parameter object under [call] *)















(** * The scenarios of the test suite, run on the model *)

Module Tests.
Import Fixture.

Example binds_items :
  ∃ s', make (H := host) 1 (VStr "hash") None
          (bind "config" (VFun ConfigInstance) VUndefined
             (bind "hash" (VFun HasherInstance) VUndefined empty_container))
        = Ret (VObj 0) s'
        ∧ objects s' = [(HasherInstance, [])].
Proof. eexists. split; vm_compute; reflexivity. Qed.

Example injects_dependencies :
  ∃ s', make (H := host) 2 (VStr "star") None
          (bind "star" (VFun StarInstance) VUndefined
             (bind "config" (VFun ConfigInstance) VUndefined empty_container))
        = Ret (VObj 1) s'
        ∧ objects s' = [(ConfigInstance, []); (StarInstance, [VObj 0])].
Proof. eexists. split; vm_compute; reflexivity. Qed.

Example module_cannot_be_resolved :
  make (H := host) 4 (VStr "star") None
    (bind "star" (VFun StarInstance) VUndefined empty_container)
  = Throw (CannotFindModule "config")
      (bind "star" (VFun StarInstance) VUndefined empty_container).
Proof. by vm_compute. Qed.

Example auto_injects_a_loaded_module :
  ∃ s', make (H := loading_host) 4 (VStr "star") None
          (bind "star" (VFun StarInstance) VUndefined empty_container)
        = Ret (VObj 1) s'
        ∧ objects s' = [(ConfigInstance, []); (StarInstance, [VObj 0])]
        ∧ instances s' = ∅.
Proof. eexists. repeat split; vm_compute; reflexivity. Qed.

Example creates_aliases :
  let s := alias "hash" "hasher"
             (bind "hash" (VFun HasherInstance) VUndefined empty_container) in
  make (H := host) 1 (VStr "hasher") None s = make (H := host) 1 (VStr "hash") None s.
Proof. by vm_compute. Qed.

Example stores_instances :
  let s := instance "foo" (VStr "bar") (instance "foo" (VObj 7) empty_container) in
  make (H := host) 1 (VStr "foo") None s = Ret (VStr "bar") s.
Proof. by vm_compute. Qed.

Example dynamically_rebounds_instances :
  let s := instance "foo" (VStr "bar")
             (bind "hello" (VFun hello) VUndefined empty_container) in
  ∃ s1 s2,
    make (H := host) 2 (VStr "hello") None s = Ret (VObj 0) s1
    ∧ make (H := host) 2 (VStr "hello") None (instance "foo" (VStr "new bar") s1)
      = Ret (VObj 1) s2
    ∧ objects s2 = [(hello, [VStr "bar"]); (hello, [VStr "new bar"])].
Proof.
  eexists. eexists. split; [vm_compute; reflexivity|].
  split; vm_compute; reflexivity.
Qed.

Example resolves_class_with_parameters :
  let s := with_arguments 0 [("id", VStr "some id")]
             (bind "testing" (VFun testing) VUndefined
                (instance "bar" (VStr "baz")
                   (instance "foo" (VStr "bar") empty_container))) in
  ∃ s', make (H := host) 2 (VStr "testing") (Some 0) s = Ret (VObj 0) s'
        ∧ objects s' = [(testing, [VStr "baz"; VStr "some id"; VStr "bar"])]
        ∧ arguments s' = arguments s.
Proof. eexists. repeat split; vm_compute; reflexivity. Qed.

Example resolves_class_at_method :
  let s := with_arguments 0 [("id", VStr "test id"); ("title", VStr "test title")]
             (bind "TestFunctionAtSignCall" (VFun TestFunctionAtSignCall) VUndefined
                (instance "newfoo" (VStr "baz")
                   (instance "foo" (VStr "bar") empty_container))) in
  ∃ s', call (H := host) 3 (Target "TestFunctionAtSignCall@sayHello") (Some 0) None s
        = Ret (VStr "test id") s'
        ∧ objects s' = [(TestFunctionAtSignCall, [VStr "test title"; VStr "bar"])]
        ∧ arguments s' !! 0 = Some {[ "title" := VStr "test title" ]}.
Proof. eexists. repeat split; vm_compute; reflexivity. Qed.

End Tests.

(** * Further properties of the resolver *)

Section Kept.
Context `{Host}.
Variable R : state → state → Prop.
Hypothesis R_refl : ∀ s, R s s.
Hypothesis R_trans : ∀ s1 s2 s3, R s1 s2 → R s2 s3 → R s1 s3.
Hypothesis R_built : ∀ s f args, R s (set_objects (λ os, os ++ [(f, args)]) s).
Hypothesis R_cached : ∀ s abstract object,
  isShared s abstract = true →
  R s (set_instances (insert (to_key abstract) object) s).
Hypothesis R_marked : ∀ s k, R s (set_resolved (insert k true) s).

Lemma kept_ret {A} (a : A) : kept R (ret a).
Proof. intros s. apply R_refl. Qed.

Lemma kept_throw {A} e : kept R (@throw A e).
Proof. intros s. apply R_refl. Qed.

Lemma kept_bind {A B} (c : M A) (k : A → M B) :
  kept R c → (∀ a, kept R (k a)) → kept R (bindM c k).
Proof.
  intros Hc Hk s. specialize (Hc s). unfold after, bindM in *.
  destruct (c s) as [a s'|e s'|]; [|done..].
  specialize (Hk a s'). unfold after in Hk.
  destruct (k a s'); eauto.
Qed.

Lemma kept_getConcrete abstract : kept R (getConcrete abstract).
Proof.
  intros s. unfold after. pose proof (getConcrete_state abstract s) as Hs.
  destruct (getConcrete abstract s); [subst; apply R_refl..|done].
Qed.

Lemma kept_instantiateClass concrete args : kept R (instantiateClass concrete args).
Proof.
  intros s. unfold after, instantiateClass.
  destruct concrete; try apply R_refl.
  destruct (construct f args) as [|v|]; [apply R_built| |apply R_refl].
  destruct (is_object v); [apply R_refl|apply R_built].
Qed.

Lemma kept_remember abstract object : kept R (remember abstract object).
Proof.
  intros s. unfold after, remember. unfold_monad.
  destruct (isShared s abstract) eqn:Hshared; simpl; [|apply R_marked].
  eapply R_trans; [by apply R_cached|apply R_marked].
Qed.

Section Step.
Variable mk : value → option nat → M value.
Hypothesis kept_mk : ∀ abstract parameters, kept R (mk abstract parameters).

Lemma kept_getDependencies names parameters :
  kept R (getDependencies mk names parameters).
Proof.
  induction names as [|name names IH]; simpl; [apply kept_ret|].
  apply kept_bind; [intros s; apply R_refl|]. intros s.
  apply kept_bind.
  - destruct (defined _); [apply kept_ret|apply kept_mk].
  - intros first. apply kept_bind; [exact IH|intros; apply kept_ret].
Qed.

Lemma kept_build concrete parameters : kept R (build mk concrete parameters).
Proof.
  unfold build. apply kept_bind.
  { destruct concrete; simpl; first [apply kept_ret|apply kept_throw]. }
  intros inject. apply kept_bind.
  - destruct inject; [|apply kept_ret].
    destruct (require _); [apply kept_ret|apply kept_throw].
  - intros c. apply kept_bind.
    { destruct c; simpl; first [apply kept_ret|apply kept_throw]. }
    intros names. apply kept_bind; [apply kept_getDependencies|].
    intros args. apply kept_instantiateClass.
Qed.

Lemma kept_make_step abstract parameters : kept R (make_step mk abstract parameters).
Proof.
  intros s. unfold make_step, after. unfold bindM at 1. unfold get.
  generalize (getAlias s abstract). clear abstract. intros abstract.
  unfold resolve. unfold bindM at 1. unfold get.
  destruct (truthy _); [apply R_refl|].
  apply (kept_bind (getConcrete abstract)); [apply kept_getConcrete|].
  intros c. apply kept_bind; [|intros; apply kept_remember].
  destruct (isBuildable c abstract); [apply kept_build|apply kept_mk].
Qed.
End Step.

Lemma kept_make fuel abstract parameters : kept R (make fuel abstract parameters).
Proof.
  revert abstract parameters.
  induction fuel as [|fuel IH]; intros abstract parameters; [by intros s|].
  simpl. by apply kept_make_step.
Qed.
End Kept.

Lemma isShared_key s abstract :
  isShared s abstract = isShared s (VStr (to_key abstract)).
Proof. reflexivity. Qed.

Lemma make_marks_stay `{Host} fuel abstract parameters :
  kept marks_stay (make fuel abstract parameters).
Proof.
  apply kept_make; unfold marks_stay; try done.
  - intros s1 s2 s3 H12 H23 k Hk. auto.
  - intros s k k' Hk'. simpl. destruct (decide (k = k')) as [->|Hne].
    + apply lookup_insert_eq.
    + by rewrite lookup_insert_ne.
Qed.

Lemma unshared_stay_trans s1 s2 s3 :
  unshared_stay s1 s2 → unshared_stay s2 s3 → unshared_stay s1 s3.
Proof.
  intros [Hb1 Hi1] [Hb2 Hi2]. split; [congruence|].
  intros k Hk. rewrite <- (Hi1 k Hk). apply Hi2.
  unfold isShared, js_get in *. simpl in *. by rewrite Hb1, (Hi1 k Hk).
Qed.

Lemma make_unshared_stay `{Host} fuel abstract parameters :
  kept unshared_stay (make fuel abstract parameters).
Proof.
  apply kept_make.
  - by split.
  - apply unshared_stay_trans.
  - by split.
  - intros s abstract' object Hshared. split; [done|].
    intros k Hk. simpl. rewrite lookup_insert_ne; [done|].
    intros Heq. rewrite isShared_key, Heq in Hshared. congruence.
  - by split.
Qed.

(** X1: whether [make] returns or throws, it leaves the bindings, the
    aliases and the caller's parameter objects exactly as they were, keeps
    every mark in [resolved], and only adds to the objects built. *)
Theorem make_keeps_registrations `{Host} (fuel : nat) (abstract : value)
    (parameters : option nat) (s : state) :
  after (make fuel abstract parameters) s
    (λ s', bindings s' = bindings s
           ∧ aliases s' = aliases s
           ∧ arguments s' = arguments s
           ∧ objects s `prefix_of` objects s'
           ∧ ∀ k, resolved s !! k = Some true → resolved s' !! k = Some true).
Proof.
  pose proof (steady_make fuel abstract parameters s) as Hgrows.
  pose proof (make_marks_stay fuel abstract parameters s) as Hmarks.
  unfold after in *.
  destruct (make fuel abstract parameters s) as [v s'|e s'|]; [| |done];
    destruct Hgrows as (Hb & Ha & Hp & _ & Ho); by repeat split.
Qed.

(** X2: [make] writes the cache sparingly: whether it returns or throws,
    a truthy cached instance is still there afterwards, under any name,
    and the cache entry of a name that is not shared (no defined entry,
    no binding flagged as shared) is as it was. *)
Theorem make_cache_discipline `{Host} (fuel : nat) (abstract : value)
    (parameters : option nat) (s : state) :
  after (make fuel abstract parameters) s
    (λ s', (∀ k, truthy (js_get (instances s) k) = true →
                 instances s' !! k = instances s !! k)
           ∧ (∀ k, isShared s (VStr k) = false →
                   instances s' !! k = instances s !! k)).
Proof.
  pose proof (steady_make fuel abstract parameters s) as Hgrows.
  pose proof (make_unshared_stay fuel abstract parameters s) as Hun.
  unfold after in *.
  destruct (make fuel abstract parameters s) as [v s'|e s'|]; [| |done];
    destruct Hgrows as (_ & _ & _ & Hi & _); destruct Hun as [_ Hu]; by split.
Qed.

(** X3: [make] marks a name as resolved only when it had to produce the
    object: a [make] that returns has either answered from the cache, and
    then changed nothing at all, or has set the mark of the name the
    alias table gave it. *)
Theorem make_marks_resolved `{Host} (fuel : nat) (abstract : value)
    (parameters : option nat) (s : state) (v : value) (s' : state) :
  make fuel abstract parameters s = Ret v s' →
  let key := to_key (getAlias s abstract) in
  if truthy (js_get (instances s) key)
  then s' = s ∧ v = js_get (instances s) key
  else resolved s' !! key = Some true.
Proof.
  destruct fuel as [|fuel]; [done|].
  simpl. unfold make_step. unfold bindM at 1. unfold get.
  generalize (getAlias s abstract). clear abstract. intros abstract.
  unfold resolve. unfold bindM at 1. unfold get.
  destruct (truthy (js_get (instances s) (to_key abstract))).
  - by intros [= <- <-].
  - intros Hr. apply bindM_Ret in Hr as (c & s1 & _ & Hr).
    apply bindM_Ret in Hr as (o & s2 & _ & Hr).
    apply remember_Ret in Hr as [_ ->]. simpl. apply lookup_insert_eq.
Qed.

Lemma make_marks_resolved_witness :
  let s := instance "foo" (VStr "bar")
             (bind "hash" (VFun Fixture.HasherInstance) VUndefined empty_container) in
  make (H := Fixture.host) 1 (VStr "foo") None s = Ret (VStr "bar") s
  ∧ resolved s !! "foo" = None
  ∧ ∃ s', make (H := Fixture.host) 1 (VStr "hash") None s = Ret (VObj 0) s'
          ∧ resolved s' !! "hash" = Some true.
Proof.
  intros s.
  assert (make (H := Fixture.host) 1 (VStr "foo") None s = Ret (VStr "bar") s) as Hfoo
    by (by vm_compute).
  split; [exact Hfoo|]. split; [reflexivity|].
  eexists. split; [vm_compute; reflexivity|].
  refine (make_marks_resolved (H := Fixture.host) 1 (VStr "hash") None s (VObj 0) _ _).
  vm_compute. reflexivity.
Defined.












(** * Further properties of the invoker *)

Lemma split_free c s : Str.contains c s = false → Str.split c s = [s].
Proof.
  induction s as [|a s IH]; [done|]. simpl. intros Hfree.
  apply orb_false_iff in Hfree as [Ha Hs]. rewrite Ha. by rewrite (IH Hs).
Qed.

Lemma split_at_separator c a b :
  Str.contains c a = false →
  Str.split c (a ++ String c b) = a :: Str.split c b.
Proof.
  induction a as [|x a IH]; simpl.
  - intros _. by rewrite bool_decide_eq_true_2.
  - intros Hfree. apply orb_false_iff in Hfree as [Hx Ha].
    rewrite Hx. by rewrite (IH Ha).
Qed.

Lemma contains_separator c a b : Str.contains c (a ++ String c b) = true.
Proof.
  induction a as [|x a IH]; simpl.
  - by rewrite bool_decide_eq_true_2.
  - rewrite IH. apply orb_true_r.
Qed.

(** X9: [defaultMethod] only goes with a string target: given together
    with a function or an [[instance, method]] pair it sends the call to
    [callClass], which cannot split its target, and the call throws a
    [TypeError] before anything is resolved. *)
Theorem default_method_needs_string_target `{Host} (fuel : nat) (callback : callable)
    (parameters : option nat) (defaultMethod : option string) (s : state) :
  (∀ target, callback ≠ Target target) →
  given defaultMethod = true →
  call (S fuel) callback parameters defaultMethod s = Throw TypeError s.
Proof.
  intros Hcallback Hgiven. simpl. unfold call_step.
  destruct callback as [f|target|instance method]; simpl.
  - by rewrite Hgiven.
  - by destruct (Hcallback target).
  - by rewrite Hgiven.
Qed.

Lemma default_method_needs_string_target_witness :
  (∀ target, Function Fixture.closure ≠ Target target)
  ∧ given (Some "run") = true
  ∧ call (H := Fixture.host) 1 (Function Fixture.closure) None (Some "run")
      empty_container
    = Throw TypeError empty_container.
Proof.
  assert (∀ target, Function Fixture.closure ≠ Target target) as Hcallback by done.
  split; [exact Hcallback|]. split; [reflexivity|].
  exact (default_method_needs_string_target (H := Fixture.host) 0
           (Function Fixture.closure) None (Some "run") empty_container
           Hcallback eq_refl).
Defined.

(** X10: a target [class@method] with a non-empty method (and no other
    at sign) is resolved in two passes over the same parameter object:
    [make(class, parameters)], then the dependencies of that method of the
    instance, then the method itself; a [defaultMethod] given besides is
    ignored.  A target without an at sign goes the same way with
    [defaultMethod] as the method. *)
Theorem class_at_method_dispatch `{Host} (fuel : nat) (class method : string)
    (parameters : option nat) (defaultMethod : option string) (s : state) :
  Str.contains "@"%char class = false →
  Str.contains "@"%char method = false →
  method ≠ "" →
  call (S (S fuel)) (Target (class ++ "@" ++ method)) parameters defaultMethod s
  = (var instance := make (S fuel) (VStr class) parameters ;;
     var dependencies :=
       getMethodDependencies (make fuel) (Method instance method) parameters ;;
     executeCallable (Method instance method) dependencies) s
  ∧ call (S (S fuel)) (Target class) parameters (Some method) s
    = (var instance := make (S fuel) (VStr class) parameters ;;
       var dependencies :=
         getMethodDependencies (make fuel) (Method instance method) parameters ;;
       executeCallable (Method instance method) dependencies) s.
Proof.
  intros Hclass Hmethod Hne.
  assert (given (Some method) = true) as Hgiven.
  { simpl. by rewrite bool_decide_eq_false_2. }
  split.
  - change (call (S (S fuel)) ?cb ?p ?dm s)
      with (call_step (make (S fuel)) (call (S fuel)) cb p dm s).
    unfold call_step, isCallableWithAtSign.
    change ("@" ++ method)%string with (String "@"%char method).
    rewrite contains_separator. simpl orb. unfold callClass.
    rewrite split_at_separator, split_free by done. simpl.
    rewrite bool_decide_eq_false_2 by done. reflexivity.
  - change (call (S (S fuel)) ?cb ?p ?dm s)
      with (call_step (make (S fuel)) (call (S fuel)) cb p dm s).
    unfold call_step, isCallableWithAtSign. rewrite Hclass, Hgiven. simpl orb.
    unfold callClass. rewrite split_free by done. simpl.
    rewrite bool_decide_eq_false_2 by done. reflexivity.
Qed.

Lemma class_at_method_dispatch_witness :
  let s := Fixture.with_arguments 0 [("id", VStr "test id"); ("title", VStr "test title")]
             (bind "Greeter" (VFun Fixture.TestFunctionAtSignCall) VUndefined
                (instance "newfoo" (VStr "baz")
                   (instance "foo" (VStr "bar") empty_container))) in
  Str.contains "@"%char "Greeter" = false
  ∧ Str.contains "@"%char "sayHello" = false
  ∧ "sayHello" ≠ ""
  ∧ call (H := Fixture.host) 3 (Target "Greeter@sayHello") (Some 0) (Some "other") s
    = call (H := Fixture.host) 3 (Target "Greeter") (Some 0) (Some "sayHello") s.
Proof.
  intros s. assert ("sayHello" ≠ "") as Hne by done.
  split; [reflexivity|]. split; [reflexivity|]. split; [exact Hne|].
  destruct (class_at_method_dispatch (H := Fixture.host) 1 "Greeter" "sayHello"
              (Some 0) (Some "other") s eq_refl eq_refl Hne) as [Hat _].
  destruct (class_at_method_dispatch (H := Fixture.host) 1 "Greeter" "sayHello"
              (Some 0) None s eq_refl eq_refl Hne) as [_ Hdefault].
  exact (eq_trans Hat (eq_sym Hdefault)).
Defined.

(** X11: calling a method the instance does not have (or a method of
    [undefined] or [null]) throws a [TypeError] before any dependency is
    resolved and before the parameter object is touched. *)
Theorem missing_method_is_type_error `{Host} (fuel : nat) (instance : value)
    (method : string) (parameters : option nat) (s : state) :
  get_property (objects s) instance method = VUndefined →
  call (S fuel) (Method instance method) parameters None s = Throw TypeError s.
Proof.
  intros Hmissing. simpl. unfold call_step. simpl.
  unfold bindM at 1. unfold getMethodDependencies. unfold bindM at 1.
  unfold getCallRefrector. simpl. unfold bindM at 1. unfold member.
  destruct instance; try done; by rewrite Hmissing.
Qed.

Lemma missing_method_is_type_error_witness :
  get_property (Host := Fixture.host) (objects empty_container) (VStr "bar") "run"
  = VUndefined
  ∧ call (H := Fixture.host) 1 (Method (VStr "bar") "run") None None empty_container
    = Throw TypeError empty_container.
Proof.
  split; [reflexivity|].
  exact (missing_method_is_type_error (H := Fixture.host) 0 (VStr "bar") "run" None
           empty_container eq_refl).
Defined.

(** * Properties of the reading of parameter names *)

Lemma remove_spaces_free s : free_of Str.is_space (Str.remove_spaces s) = true.
Proof.
  induction s as [|c s IH]; [done|]. simpl.
  destruct (Str.is_space c) eqn:Hc; [done|]. simpl. by rewrite Hc.
Qed.

Lemma split_pieces_free p c s :
  free_of p s = true → Forall (λ piece, free_of p piece = true) (Str.split c s).
Proof.
  induction s as [|a s IH]; simpl; [by repeat constructor|].
  intros Hfree. apply andb_true_iff in Hfree as [Ha Hs]. specialize (IH Hs).
  destruct (bool_decide (a = c)); [by constructor|].
  destruct (Str.split c s) as [|h t]; [by repeat constructor; simpl; rewrite Ha|].
  apply Forall_cons in IH as [Hh Ht]. constructor; [|done]. simpl. by rewrite Ha.
Qed.

Lemma split_pieces_no_separator c s :
  Forall (λ piece, Str.contains c piece = false) (Str.split c s).
Proof.
  induction s as [|a s IH]; simpl; [by repeat constructor|].
  destruct (bool_decide (a = c)) eqn:Ha; [by constructor|].
  destruct (Str.split c s) as [|h t]; [by repeat constructor; simpl; rewrite Ha|].
  apply Forall_cons in IH as [Hh Ht]. constructor; [|done]. simpl. by rewrite Ha.
Qed.

(** X12: the names [parseFunctionArguments] reads are never empty and
    contain neither a blank nor a comma, whatever text it is given. *)
Theorem parsed_names_are_well_formed (src : string) :
  Forall (λ name, name ≠ ""
                  ∧ free_of Str.is_space name = true
                  ∧ Str.contains ","%char name = false)
         (parseSource src).
Proof.
  unfold parseSource. destruct (Str.signature true src) as [args|]; [|constructor].
  apply Forall_forall. intros name Hname.
  apply list_elem_of_filter in Hname as [Hne Hin].
  split; [exact Hne|]. split.
  - pose proof (split_pieces_free Str.is_space ","%char _ (remove_spaces_free args))
      as Hfree.
    by apply (proj1 (Forall_forall _ _) Hfree).
  - by apply (proj1 (Forall_forall _ _)
                (split_pieces_no_separator ","%char (Str.remove_spaces args))).
Qed.

Lemma signature_none src :
  free_of Str.is_line_terminator src = true →
  Str.signature false src = None.
Proof.
  induction src as [|c src IH]; [done|]. simpl. intros Hfree.
  apply andb_true_iff in Hfree as [Hc Hsrc].
  apply negb_true_iff in Hc. rewrite Hc. by apply IH.
Qed.

(** X13: a one-line text that does not begin with the word function (an
    arrow function, a class, a method written in short form) has no
    parameter names for the container: a call of such a function resolves
    nothing, passes no argument and leaves the parameter object as it
    is. *)
Theorem no_injection_without_function_keyword `{Host} (f : fn) (fuel : nat)
    (parameters : option nat) (s : state) :
  Str.strip_prefix "function" (fn_src f) = None →
  free_of Str.is_line_terminator (fn_src f) = true →
  parseSource (fn_src f) = []
  ∧ call (S fuel) (Function f) parameters None s = apply (VFun f) (VFun f) [] s.
Proof.
  intros Hprefix Hline.
  assert (parseSource (fn_src f) = []) as Hnames.
  { unfold parseSource.
    replace (Str.signature true (fn_src f)) with (@None string); [done|].
    destruct (fn_src f) as [|c src] eqn:Hsrc; [done|].
    simpl. unfold Str.signature_here. rewrite Hprefix. simpl.
    simpl in Hline. apply andb_true_iff in Hline as [Hc Hrest].
    apply negb_true_iff in Hc. rewrite Hc. symmetry. by apply signature_none. }
  split; [exact Hnames|].
  simpl. unfold call_step. simpl. unfold bindM at 1.
  unfold getMethodDependencies. unfold bindM at 1. simpl. unfold ret at 1.
  by rewrite Hnames.
Qed.

Lemma no_injection_without_function_keyword_witness :
  let arrow := Fn 20 "(id, foobar, barfoo) => id" in
  let s := Fixture.with_arguments 0 [("id", VStr "new id")] empty_container in
  Str.strip_prefix "function" (fn_src arrow) = None
  ∧ free_of Str.is_line_terminator (fn_src arrow) = true
  ∧ call (H := Fixture.host) 1 (Function arrow) (Some 0) None s = Ret VUndefined s.
Proof.
  intros arrow s. split; [reflexivity|]. split; [reflexivity|].
  destruct (no_injection_without_function_keyword (H := Fixture.host) arrow 0 (Some 0) s
              eq_refl eq_refl) as [_ Hcall].
  exact Hcall.
Defined.

Lemma after_first_app c a rest :
  Str.contains c a = false → Str.after_first c (a ++ String c rest) = Some rest.
Proof.
  induction a as [|x a IH]; simpl.
  - intros _. by rewrite bool_decide_eq_true_2.
  - intros Hfree. apply orb_false_iff in Hfree as [Hx Ha]. rewrite Hx. by apply IH.
Qed.

Lemma before_first_app c a rest :
  Str.contains c a = false → Str.before_first c (a ++ String c rest) = Some a.
Proof.
  induction a as [|x a IH]; simpl.
  - intros _. by rewrite bool_decide_eq_true_2.
  - intros Hfree. apply orb_false_iff in Hfree as [Hx Ha].
    rewrite Hx. by rewrite (IH Ha).
Qed.

Lemma skip_spaces_app a c rest :
  Str.is_space c = false →
  Str.skip_spaces (a ++ String c rest) = (Str.skip_spaces a ++ String c rest)%string.
Proof.
  intros Hc. induction a as [|x a IH]; simpl.
  - by rewrite Hc.
  - by destruct (Str.is_space x).
Qed.

Lemma skip_spaces_contains c a :
  Str.contains c a = false → Str.contains c (Str.skip_spaces a) = false.
Proof.
  induction a as [|x a IH]; [done|]. simpl. intros Hfree.
  destruct (Str.is_space x).
  - apply orb_false_iff in Hfree as [_ Ha]. by apply IH.
  - exact Hfree.
Qed.

Lemma remove_spaces_skip a : Str.remove_spaces (Str.skip_spaces a) = Str.remove_spaces a.
Proof.
  induction a as [|x a IH]; [done|]. simpl.
  destruct (Str.is_space x) eqn:Hx; [done|]. simpl. by rewrite Hx.
Qed.

(** The pattern on a text of the shape it is written for. *)
Lemma signature_shape pre args body :
  Str.contains "("%char pre = false →
  Str.contains ")"%char args = false →
  Str.signature true ("function" ++ pre ++ String "("%char (args ++ String ")"%char body))
  = Some (Str.skip_spaces args).
Proof.
  intros Hpre Hargs.
  assert (Str.signature_here
            ("function" ++ pre ++ String "("%char (args ++ String ")"%char body))
          = Some (Str.skip_spaces args)) as Hhere.
  { unfold Str.signature_here.
    change (Str.strip_prefix "function" ("function" ++ ?x)) with (Some x).
    simpl. rewrite after_first_app by done. simpl.
    rewrite skip_spaces_app by done.
    apply before_first_app. by apply skip_spaces_contains. }
  revert Hhere.
  generalize ("function" ++ pre ++ String "("%char (args ++ String ")"%char body))%string.
  intros src Hhere. destruct src; [by cbv in Hhere|]. simpl. by rewrite Hhere.
Qed.

Lemma remove_spaces_app a b :
  Str.remove_spaces (a ++ b) = (Str.remove_spaces a ++ Str.remove_spaces b)%string.
Proof.
  induction a as [|x a IH]; [done|]. simpl.
  destruct (Str.is_space x); [done|]. simpl. by rewrite IH.
Qed.

Lemma remove_spaces_id a : free_of Str.is_space a = true → Str.remove_spaces a = a.
Proof.
  induction a as [|x a IH]; [done|]. simpl. intros Hfree.
  apply andb_true_iff in Hfree as [Hx Ha]. apply negb_true_iff in Hx.
  rewrite Hx. by rewrite (IH Ha).
Qed.

Lemma contains_app c a b :
  Str.contains c (a ++ b) = Str.contains c a || Str.contains c b.
Proof.
  induction a as [|x a IH]; [done|]. simpl. by rewrite IH, orb_assoc.
Qed.

Lemma plain_name_spec name :
  plain_name name = true →
  name ≠ ""
  ∧ free_of Str.is_space name = true
  ∧ Str.contains ","%char name = false
  ∧ Str.contains ")"%char name = false.
Proof.
  unfold plain_name. intros Hplain. apply andb_true_iff in Hplain as [Hne Hchars].
  apply negb_true_iff, bool_decide_eq_false in Hne. split; [exact Hne|].
  clear Hne. induction name as [|c name IH]; [done|].
  simpl in Hchars. apply andb_true_iff in Hchars as [Hc Hrest].
  destruct (IH Hrest) as (Hs & Hcomma & Hparen).
  unfold name_char in Hc. rewrite negb_involutive in Hc.
  apply negb_true_iff in Hc.
  apply orb_false_iff in Hc as [Hc Hp]. apply orb_false_iff in Hc as [Hsp Hco].
  simpl. by rewrite Hsp, Hco, Hp, Hs, Hcomma, Hparen.
Qed.

Lemma join_plain names :
  Forall (λ name, plain_name name = true) names →
  Str.contains ")"%char (join ", " names) = false
  ∧ Str.remove_spaces (join ", " names) = join "," names.
Proof.
  induction names as [|name [|next names] IH]; intros Hall; [done|..].
  - apply Forall_cons in Hall as [Hname _].
    destruct (plain_name_spec _ Hname) as (_ & Hs & _ & Hp).
    simpl. split; [done|]. by apply remove_spaces_id.
  - apply Forall_cons in Hall as [Hname Hrest].
    destruct (plain_name_spec _ Hname) as (_ & Hs & _ & Hp).
    destruct (IH Hrest) as [Hp' Hr'].
    change (join ", " (name :: next :: names))
      with (name ++ ", " ++ join ", " (next :: names))%string.
    change (join "," (name :: next :: names))
      with (name ++ "," ++ join "," (next :: names))%string.
    split.
    + rewrite !contains_app, Hp, Hp'. reflexivity.
    + rewrite !remove_spaces_app, Hr', remove_spaces_id by done. reflexivity.
Qed.

Lemma split_join names :
  names ≠ [] →
  Forall (λ name, Str.contains ","%char name = false) names →
  Str.split ","%char (join "," names) = names.
Proof.
  induction names as [|name [|next names] IH]; intros Hne Hall; [done|..].
  - apply Forall_cons in Hall as [Hname _]. simpl. by apply split_free.
  - apply Forall_cons in Hall as [Hname Hrest].
    change (join "," (name :: next :: names))
      with (name ++ String ","%char (join "," (next :: names)))%string.
    rewrite split_at_separator by done. by rewrite IH.
Qed.

Lemma filter_nonempty (names : list string) :
  Forall (λ name, name ≠ "") names →
  filter (λ dep, dep ≠ EmptyString) names = names.
Proof.
  induction 1 as [|name names Hname _ IH]; [done|].
  rewrite filter_cons_True by done. by rewrite IH.
Qed.

(** X14: the names are read back from a signature as they were written:
    for names without blanks, commas or closing parentheses, a text made
    of the word function, anything without an opening parenthesis, and the
    names between parentheses separated by a comma and a blank, yields
    exactly those names, in order, whatever follows. *)
Theorem parsed_names_round_trip (pre body : string) (names : list string) :
  Str.contains "("%char pre = false →
  Forall (λ name, plain_name name = true) names →
  parseSource ("function" ++ pre ++ "(" ++ join ", " names ++ ")" ++ body) = names.
Proof.
  intros Hpre Hall. destruct (join_plain names Hall) as [Hparen Hspaces].
  unfold parseSource.
  change ("function" ++ pre ++ "(" ++ join ", " names ++ ")" ++ body)%string
    with ("function" ++ pre
          ++ String "("%char (join ", " names ++ String ")"%char body))%string.
  rewrite signature_shape by done. rewrite remove_spaces_skip, Hspaces.
  destruct names as [|name names]; [done|].
  rewrite split_join; [|done|].
  - apply filter_nonempty. eapply Forall_impl; [exact Hall|].
    intros n Hn. by destruct (plain_name_spec n Hn).
  - eapply Forall_impl; [exact Hall|].
    intros n Hn. by destruct (plain_name_spec n Hn) as (_ & _ & Hc & _).
Qed.

Lemma parsed_names_round_trip_witness :
  Str.contains "("%char " StarInstance " = false
  ∧ Forall (λ name, plain_name name = true) ["config"; "hash"]
  ∧ parseSource "function StarInstance (config, hash) { return config; }"
    = ["config"; "hash"].
Proof.
  assert (Forall (λ name, plain_name name = true) ["config"; "hash"]) as Hall
    by (repeat constructor).
  split; [reflexivity|]. split; [exact Hall|].
  exact (parsed_names_round_trip " StarInstance " " { return config; }"
           ["config"; "hash"] eq_refl Hall).
Defined.

(** * Further properties of injection *)

Lemma truthy_defined v : truthy v = true → defined v = true.
Proof. by destruct v. Qed.

(** X15: every declared parameter gets an argument, and never
    [undefined]: when [getDependencies] (for a constructor) or the
    collection of a call's dependencies returns, there are as many
    arguments as names and each is a defined value, a supplied one or
    the truthy result of a [make]. *)
Theorem dependencies_are_defined `{Host} (fuel : nat) (names : list string)
    (parameters : option nat) (s : state) (args : list value) (s' : state) :
  getDependencies (make fuel) names parameters s = Ret args s'
  ∨ collect (make fuel) names parameters s = Ret args s' →
  length args = length names ∧ Forall (λ v, defined v = true) args.
Proof.
  revert s args. induction names as [|name names IH]; intros s args.
  - intros [[= <- _]|[= <- _]]; by split.
  - intros [Hdeps|Hdeps]; simpl in Hdeps.
    + apply bindM_Ret in Hdeps as (s0 & s1 & [= <- <-] & Hdeps).
      apply bindM_Ret in Hdeps as (first & s2 & Hfirst & Hdeps).
      apply bindM_Ret in Hdeps as (rest & s3 & Hrest & [= <- <-]).
      destruct (IH s2 rest (or_introl Hrest)) as [Hlen Hall].
      split; [simpl; by rewrite Hlen|]. constructor; [|done].
      destruct (defined (parameter s parameters name)) eqn:Hdef.
      * by injection Hfirst as <- _.
      * apply make_truthy in Hfirst. by apply truthy_defined.
    + apply bindM_Ret in Hdeps as (first & s2 & Hfirst & Hdeps).
      apply bindM_Ret in Hdeps as (rest & s3 & Hrest & [= <- <-]).
      destruct (IH s2 rest (or_intror Hrest)) as [Hlen Hall].
      split; [simpl; by rewrite Hlen|]. constructor; [|done].
      unfold addDependencyForCallParameter in Hfirst.
      unfold bindM at 1 in Hfirst. unfold get in Hfirst.
      destruct (defined (parameter s parameters name)) eqn:Hdef.
      * unfold_monad. by injection Hfirst as <- _.
      * apply make_truthy in Hfirst. by apply truthy_defined.
Qed.

Lemma dependencies_are_defined_witness :
  let s := Fixture.with_arguments 0 [("id", VStr "some id")]
             (instance "bar" (VStr "baz")
                (instance "foo" (VStr "bar") empty_container)) in
  getDependencies (make (H := Fixture.host) 1) ["bar"; "id"; "foo"] (Some 0) s
  = Ret [VStr "baz"; VStr "some id"; VStr "bar"] s
  ∧ length [VStr "baz"; VStr "some id"; VStr "bar"] = length ["bar"; "id"; "foo"].
Proof.
  intros s.
  assert (getDependencies (make (H := Fixture.host) 1) ["bar"; "id"; "foo"] (Some 0) s
          = Ret [VStr "baz"; VStr "some id"; VStr "bar"] s) as Hdeps
    by (by vm_compute).
  split; [exact Hdeps|].
  exact (proj1 (dependencies_are_defined (H := Fixture.host) 1 _ (Some 0) s _ s
                  (or_introl Hdeps))).
Defined.

(** X16: what [make] returns is never falsy: not [undefined], [null],
    [false], [0] or the empty string, whatever is registered and whatever
    the loader and the constructors do. *)
Theorem make_never_returns_falsy `{Host} (fuel : nat) (abstract : value)
    (parameters : option nat) (s : state) (v : value) (s' : state) :
  make fuel abstract parameters s = Ret v s' →
  truthy v = true
  ∧ v ≠ VUndefined ∧ v ≠ VNull ∧ v ≠ VBool false ∧ v ≠ VNum 0 ∧ v ≠ VStr "".
Proof.
  intros Hmake. apply make_truthy in Hmake.
  split; [exact Hmake|]. repeat split; intros ->; discriminate.
Qed.

Lemma make_never_returns_falsy_witness :
  let s := bind "hash" (VFun Fixture.HasherInstance) VUndefined empty_container in
  ∃ s', make (H := Fixture.host) 1 (VStr "hash") None s = Ret (VObj 0) s'
        ∧ truthy (VObj 0) = true.
Proof.
  intros s. eexists.
  assert (∀ (P Q : Prop), P → (P → Q) → P ∧ Q) as Hboth by tauto.
  apply Hboth; [vm_compute; reflexivity|].
  intros Hmake.
  exact (proj1 (make_never_returns_falsy (H := Fixture.host) 1 (VStr "hash") None s
                  (VObj 0) _ Hmake)).
Defined.





(** * Further properties of the parameter object and of the registry *)

Lemma consume_app done rest m : consume (done ++ rest) m = consume rest (consume done m).
Proof. unfold consume. apply foldl_app. Qed.









(** The first [make] through a name that the alias table sends to a
    shared name leaves its result in the cache of that name. *)
Lemma make_caches_canonical `{Host} fuel a n parameters s b v s' :
  getAlias s (VStr a) = VStr n →
  bindings s !! n = Some b → shared b = true →
  make fuel (VStr a) parameters s = Ret v s' →
  instances s' !! n = Some v.
Proof.
  intros Halias Hb Hshared. destruct fuel as [|fuel]; [done|].
  simpl. unfold make_step. unfold bindM at 1. unfold get.
  rewrite Halias. unfold resolve. unfold bindM at 1. unfold get. simpl.
  destruct (truthy (js_get (instances s) n)) eqn:Hcached.
  - intros [= <- <-]. unfold js_get in *.
    by destruct (instances s !! n).
  - unfold bindM at 1.
    pose proof (getConcrete_state (VStr n) s) as Hget.
    destruct (getConcrete (VStr n) s) as [c s1|e s1|]; [subst s1|done..].
    intros Hr. apply bindM_Ret in Hr as (o & s2 & Hobj & Hr).
    apply remember_Ret in Hr as [-> ->].
    assert (grows s s2) as (Hbs & _).
    { destruct (isBuildable c (VStr n)).
      - pose proof (steady_build _ (steady_make fuel) c parameters s) as Hs.
        unfold after in Hs. by rewrite Hobj in Hs.
      - pose proof (steady_make fuel c parameters s) as Hs.
        unfold after in Hs. by rewrite Hobj in Hs. }
    unfold isShared. simpl. rewrite Hbs, Hb, Hshared, orb_true_r. simpl.
    by rewrite lookup_insert_eq.
Qed.

(** X20: an alias shares the singleton of its name: when [a] is an alias
    of the shared name [n], which is not itself an alias, whichever of
    [make(a)] and [make(n)] comes first and returns, both return that same
    value from then on, without building anything. *)
Theorem alias_shares_singleton `{Host} (a n : string) (s : state) (b : binding)
    (fuel : nat) (parameters : option nat) (first : string) (v : value) (s' : state) :
  getAlias s (VStr a) = VStr n →
  getAlias s (VStr n) = VStr n →
  bindings s !! n = Some b →
  shared b = true →
  first = a ∨ first = n →
  make fuel (VStr first) parameters s = Ret v s' →
  ∀ fuel' parameters',
    make (S fuel') (VStr a) parameters' s' = Ret v s'
    ∧ make (S fuel') (VStr n) parameters' s' = Ret v s'.
Proof.
  intros Ha Hn Hb Hshared Hfirst Hmake fuel' parameters'.
  pose proof (make_truthy _ _ _ _ _ _ Hmake) as Hv.
  assert (instances s' !! n = Some v) as Hcached.
  { destruct Hfirst as [Hf|Hf]; subst first.
    - exact (make_caches_canonical fuel a n parameters s b v s' Ha Hb Hshared Hmake).
    - exact (make_caches_canonical fuel n n parameters s b v s' Hn Hb Hshared Hmake). }
  pose proof (steady_make fuel (VStr first) parameters s) as Hgrows.
  unfold after in Hgrows. rewrite Hmake in Hgrows.
  destruct Hgrows as (_ & Haliases & _).
  assert (∀ x, getAlias s' (VStr x) = getAlias s (VStr x)) as Hsame.
  { intros x. unfold getAlias, isAlias. by rewrite Haliases. }
  assert (∀ x, getAlias s' (VStr x) = VStr n →
               make (S fuel') (VStr x) parameters' s' = Ret v s') as Hhit.
  { intros x Hx. simpl. unfold make_step. unfold bindM at 1. unfold get.
    rewrite Hx. unfold resolve. unfold bindM at 1. unfold get, js_get. simpl.
    by rewrite Hcached; simpl; rewrite Hv. }
  split; apply Hhit; by rewrite Hsame.
Qed.

Lemma alias_shares_singleton_witness :
  let s := alias "hash" "hasher"
             (singleton "hash" (VFun Fixture.HasherInstance) empty_container) in
  let s' := set_resolved (insert "hash" true)
              (set_instances (insert "hash" (VObj 0))
                 (set_objects (λ os, os ++ [(Fixture.HasherInstance, [])]) s)) in
  getAlias s (VStr "hasher") = VStr "hash"
  ∧ make (H := Fixture.host) 1 (VStr "hasher") None s = Ret (VObj 0) s'
  ∧ make (H := Fixture.host) 1 (VStr "hash") None s' = Ret (VObj 0) s'.
Proof.
  intros s s'.
  assert (make (H := Fixture.host) 1 (VStr "hasher") None s = Ret (VObj 0) s') as Hmake
    by (vm_compute; reflexivity).
  assert (bindings s !! "hash" = Some (Binding (VFun Fixture.HasherInstance) true))
    as Hb by (vm_compute; reflexivity).
  split; [reflexivity|]. split; [exact Hmake|].
  exact (proj2 (alias_shares_singleton (H := Fixture.host) "hasher" "hash" s _ 1 None
                  "hasher" (VObj 0) s' eq_refl eq_refl Hb eq_refl (or_introl eq_refl)
                  Hmake 0 None)).
Defined.

Lemma getDependencies_agree `{Host} fuel names parameters parameters' s :
  (∀ name, name ∈ names →
           parameter s parameters name = parameter s parameters' name) →
  getDependencies (make fuel) names parameters s
  = getDependencies (make fuel) names parameters' s.
Proof.
  revert s. induction names as [|name names IH]; intros s Hagree; [done|].
  simpl. unfold bindM, get, ret.
  rewrite <- (Hagree name) by left.
  destruct (defined (parameter s parameters name)).
  - rewrite (IH s); [done|].
    intros name' Hname'. apply Hagree. by right.
  - pose proof (steady_make fuel (VStr name) None s) as Hgrows. unfold after in Hgrows.
    destruct (make fuel (VStr name) None s) as [v s1|e s1|]; [|done..].
    rewrite (IH s1); [done|].
    intros name' Hname'. rewrite !(parameter_grows s s1) by done.
    apply Hagree. by right.
Qed.

(** X21: the caller's parameters reach the constructor being built and
    no further: [build] reads the parameter object only under the
    constructor's own parameter names, and makes every other dependency
    without parameters, so two parameter objects that agree on those names
    give the same result. *)
Theorem overrides_stop_at_the_constructor `{Host} (fuel : nat) (C : fn)
    (parameters parameters' : option nat) (s : state) :
  (∀ name, name ∈ parseSource (fn_src C) →
           parameter s parameters name = parameter s parameters' name) →
  build (make fuel) (VFun C) parameters s = build (make fuel) (VFun C) parameters' s.
Proof.
  intros Hagree. rewrite !build_function. unfold bindM.
  by rewrite (getDependencies_agree fuel _ parameters parameters' s Hagree).
Qed.

Lemma overrides_stop_at_the_constructor_witness :
  let s := Fixture.with_arguments 0 [("config", VStr "mine"); ("title", VStr "t")]
             (Fixture.with_arguments 1 [("config", VStr "mine")]
                (bind "config" (VFun Fixture.ConfigInstance) VUndefined empty_container)) in
  (∀ name, name ∈ parseSource (fn_src Fixture.StarInstance) →
           parameter s (Some 0) name = parameter s (Some 1) name)
  ∧ build (H := Fixture.host) (make (H := Fixture.host) 1)
      (VFun Fixture.StarInstance) (Some 0) s
    = build (H := Fixture.host) (make (H := Fixture.host) 1)
        (VFun Fixture.StarInstance) (Some 1) s.
Proof.
  intros s.
  assert (∀ name, name ∈ parseSource (fn_src Fixture.StarInstance) →
                  parameter s (Some 0) name = parameter s (Some 1) name) as Hagree.
  { intros name Hname. change (parseSource (fn_src Fixture.StarInstance))
      with ["config"] in Hname.
    apply list_elem_of_singleton in Hname as ->. reflexivity. }
  split; [exact Hagree|].
  exact (overrides_stop_at_the_constructor (H := Fixture.host) 1 Fixture.StarInstance
           (Some 0) (Some 1) s Hagree).
Defined.
